(** * locustfile.py: a simulated TCP client for a load-testing harness

    The script defines one [TcpClient] user with two lifecycle hooks
    ([on_start], [on_stop]) and one task ([connect_to_server]).  All of its
    behaviour is a sequence of calls into the Python runtime ([socket],
    [time], [random]); we embed the script as a program in a state-and-
    exception monad over a [World] that holds the socket table, the clock,
    the [self.sock] attribute, a log of the calls made, and the answers the
    environment will give to the calls whose outcome the script does not
    control. *)

From Stdlib Require Import ZArith NArith QArith String List Lia.
From stdpp Require Import base option gmap.
Import ListNotations.

Open Scope Z_scope.

(** ** Exceptions *)

(** The exception classes that matter to the script.  In Python 3
    [socket.error] is an alias of [OSError]; its subclasses
    ([ConnectionRefusedError], [TimeoutError], ...) differ only in [errno]. *)
Inductive exn : Type :=
| OSError (errno : Z)
| ValueError
| TypeError
| AttributeError
| MemoryError
| KeyboardInterrupt.

(** [isinstance(e, socket.error)] *)
Definition is_socket_error (e : exn) : bool :=
  match e with
  | OSError _ => true
  | _ => false
  end.

Definition EBADF : Z := 9.
Definition EISCONN : Z := 106.
Definition ECONNREFUSED : Z := 111.
Definition EIO : Z := 5.

(** ** The world *)

Inductive sock_state : Type := Unconnected | Connected | Closed.

Definition address : Type := string * Z.

(** Calls into the runtime that are visible from outside the process. *)
Inductive event : Type :=
| EvSocket (fd : nat)
| EvConnect (fd : nat) (addr : address)
| EvSend (fd : nat) (nbytes : Z)
| EvRecv (fd : nat) (nbytes : Z)
| EvClose (fd : nat)
| EvSleep (secs : Z).

(** What the environment answers to one call: whether the call fails, how
    long it takes beyond what was asked (milliseconds) and the random bits
    it hands out.  Each call reads the fields that concern it. *)
Record answer : Type := mkAnswer {
  fails : option exn;
  delay : N;
  draw : N
}.

Record World : Type := mkWorld {
  now_ms : Z;                    (* monotonic clock, milliseconds *)
  socks : gmap nat sock_state;   (* socket objects by descriptor *)
  next_fd : nat;                 (* next descriptor to hand out *)
  self_sock : option nat;        (* the attribute self.sock, once assigned *)
  oracle : nat -> answer;        (* the environment's answers, in order *)
  asked : nat;                   (* how many answers were consumed *)
  log : list event               (* calls made so far, oldest first *)
}.

Definition emit (e : event) (w : World) : World :=
  mkWorld (now_ms w) (socks w) (next_fd w) (self_sock w) (oracle w) (asked w)
          (log w ++ [e]).

Definition advance (ms : Z) (w : World) : World :=
  mkWorld (now_ms w + ms) (socks w) (next_fd w) (self_sock w) (oracle w)
          (asked w) (log w).

Definition consume (w : World) : World :=
  mkWorld (now_ms w) (socks w) (next_fd w) (self_sock w) (oracle w)
          (S (asked w)) (log w).

Definition set_sock (fd : nat) (s : sock_state) (w : World) : World :=
  mkWorld (now_ms w) (<[fd := s]> (socks w)) (next_fd w) (self_sock w)
          (oracle w) (asked w) (log w).

Definition alloc_fd (w : World) : World :=
  mkWorld (now_ms w) (socks w) (S (next_fd w)) (self_sock w) (oracle w)
          (asked w) (log w).

Definition assign_self_sock (fd : nat) (w : World) : World :=
  mkWorld (now_ms w) (socks w) (next_fd w) (Some fd) (oracle w) (asked w)
          (log w).

Definition next_answer (w : World) : answer := oracle w (asked w).

(** The state of descriptor [fd]; a descriptor that was never handed out is
    as good as closed. *)
Definition state_of (w : World) (fd : nat) : sock_state :=
  default Closed (socks w !! fd).

(** ** The monad of Python statements *)

Inductive result (A : Type) : Type :=
| Ret (a : A)
| Raise (e : exn).
Arguments Ret {A} a.
Arguments Raise {A} e.

Definition M (A : Type) : Type := World -> result A * World.

Definition ret {A} (a : A) : M A := fun w => (Ret a, w).

Definition bind {A B} (m : M A) (k : A -> M B) : M B :=
  fun w =>
    match m w with
    | (Ret a, w') => k a w'
    | (Raise e, w') => (Raise e, w')
    end.

Declare Scope py_scope.
Delimit Scope py_scope with py.
Notation "x <- m ;; k" := (bind m (fun x => k))
  (at level 100, m at next level, right associativity) : py_scope.
Notation "m ;; k" := (bind m (fun _ => k))
  (at level 100, right associativity) : py_scope.

(** [try: body except cls as e: handler e], where [catches] decides
    [isinstance(e, cls)].  An exception raised by the handler itself
    propagates. *)
Definition try_except {A} (body : M A) (catches : exn -> bool)
    (handler : exn -> M A) : M A :=
  fun w =>
    match body w with
    | (Ret a, w') => (Ret a, w')
    | (Raise e, w') => if catches e then handler e w' else (Raise e, w')
    end.

(** ** The runtime the script calls into *)

Module socket.

(** [socket.socket(AF_INET, SOCK_STREAM)]: a fresh, unconnected socket. *)
Definition socket : M nat :=
  fun w =>
    let fd := next_fd w in
    (Ret fd, alloc_fd (set_sock fd Unconnected (emit (EvSocket fd) w))).

(** [sock.connect(addr)].  On a closed socket the descriptor is gone
    ([EBADF]) and on a connected one the call is refused ([EISCONN]);
    otherwise the network decides. *)
Definition connect (fd : nat) (addr : address) : M unit :=
  fun w =>
    let w := emit (EvConnect fd addr) w in
    match state_of w fd with
    | Unconnected =>
        let a := next_answer w in
        let w := advance (Z.of_N (delay a)) (consume w) in
        match fails a with
        | None => (Ret tt, set_sock fd Connected w)
        | Some e => (Raise e, w)
        end
    | Connected => (Raise (OSError EISCONN), w)
    | Closed => (Raise (OSError EBADF), w)
    end.

(** [sock.close()].  The socket object is marked closed before the
    descriptor is released, so closing twice is a no-operation; only
    tearing down a connection can fail. *)
Definition close (fd : nat) : M unit :=
  fun w =>
    let w := emit (EvClose fd) w in
    match state_of w fd with
    | Closed => (Ret tt, w)
    | Unconnected => (Ret tt, set_sock fd Closed w)
    | Connected =>
        let a := next_answer w in
        let w := set_sock fd Closed (advance (Z.of_N (delay a)) (consume w)) in
        match fails a with
        | None => (Ret tt, w)
        | Some e => (Raise e, w)
        end
    end.

(** [sock.sendall(data)] and [sock.recv(n)]: the only calls that move
    payload. *)
Definition sendall (fd : nat) (nbytes : Z) : M unit :=
  fun w =>
    let w := emit (EvSend fd nbytes) w in
    match state_of w fd with
    | Connected =>
        let a := next_answer w in
        let w := advance (Z.of_N (delay a)) (consume w) in
        match fails a with
        | None => (Ret tt, w)
        | Some e => (Raise e, w)
        end
    | _ => (Raise (OSError EBADF), w)
    end.

Definition recv (fd : nat) (nbytes : Z) : M Z :=
  fun w =>
    let w := emit (EvRecv fd nbytes) w in
    match state_of w fd with
    | Connected =>
        let a := next_answer w in
        let w := advance (Z.of_N (delay a)) (consume w) in
        match fails a with
        | None => (Ret (Z.min nbytes (Z.of_N (draw a))), w)
        | Some e => (Raise e, w)
        end
    | _ => (Raise (OSError EBADF), w)
    end.

End socket.

Module time.

(** [time.sleep(secs)]: blocks for at least [secs] seconds; a negative
    argument is a [ValueError]. *)
Definition sleep (secs : Z) : M unit :=
  fun w =>
    if secs <? 0 then (Raise ValueError, w)
    else
      let a := next_answer w in
      (Ret tt,
       advance (1000 * secs + Z.of_N (delay a)) (consume (emit (EvSleep secs) w))).

End time.

Module random.

(** [random._randbelow(n)]: a uniform integer in [0, n). *)
Definition randbelow_of (n : Z) (bits : N) : Z := Z.of_N bits mod n.

(** The value [randint(a, b)] = [a + _randbelow(b - a + 1)] computes from
    the random bits it is given. *)
Definition randint_of (a b : Z) (bits : N) : Z :=
  a + randbelow_of (b - a + 1) bits.

Definition randint (a b : Z) : M Z :=
  fun w =>
    if b <? a then (Raise ValueError, w)
    else (Ret (randint_of a b (draw (next_answer w))), consume w).

(** [random.random()]: a multiple of 2^-53 in [0, 1). *)
Definition random_of (bits : N) : Q :=
  Qmake (Z.of_N bits mod 2 ^ 53) (2 ^ 53).

Definition random : M Q :=
  fun w => (Ret (random_of (draw (next_answer w))), consume w).

End random.

Module locust.


End locust.

(** ** The script *)

Module TcpClient.

(** Reading the attribute [self.sock]. *)
Definition get_sock : M nat :=
  fun w =>
    match self_sock w with
    | Some fd => (Ret fd, w)
    | None => (Raise AttributeError, w)
    end.

(** Assigning the attribute [self.sock]. *)
Definition put_sock (fd : nat) : M unit :=
  fun w => (Ret tt, assign_self_sock fd w).

Definition server : address := ("127.0.0.1"%string, 2345).


Definition on_start : M unit :=
  (fd <- socket.socket ;; put_sock fd)%py.

Definition on_stop : M unit :=
  (s <- get_sock ;; socket.close s)%py.

(** The statements under [try:]. *)
Definition connect_to_server_body : M unit :=
  (s <- get_sock ;;
   socket.connect s server ;;
   d <- random.randint 1 10 ;;
   time.sleep d ;;
   s' <- get_sock ;;
   socket.close s')%py.

Definition connect_to_server : M unit :=
  try_except connect_to_server_body is_socket_error (fun _ => time.sleep 1).

End TcpClient.

(** ** The harness, as far as the script sees it *)

(** One task cycle: the harness calls the task and carries on with the
    resulting world whether the task returned or raised. *)
Definition task_cycle (w : World) : World := snd (TcpClient.connect_to_server w).

Fixpoint task_cycles (n : nat) (w : World) : World :=
  match n with
  | O => w
  | S n' => task_cycles n' (task_cycle w)
  end.

(** A session that has been started and has run some number of task cycles. *)
Inductive in_session : World -> Prop :=
| session_started w : in_session (snd (TcpClient.on_start w))
| session_cycle w : in_session w -> in_session (task_cycle w).

(** ** Concrete worlds *)

Definition quiet : answer := mkAnswer None 0 0.

(** A world with no sockets whose environment answers [script] and then
    lets every call succeed at once. *)
Definition boot (script : list answer) : World :=
  mkWorld 0 ∅ 3 None (fun i => nth i script quiet) 0 [].

Definition refused : answer := mkAnswer (Some (OSError ECONNREFUSED)) 0 0.

(** How often [fd] is closed in a stretch of the log. *)
Definition is_close_of (fd : nat) (e : event) : bool :=
  match e with
  | EvClose fd' => Nat.eqb fd fd'
  | _ => false
  end.

Definition closes (fd : nat) (l : list event) : nat :=
  length (List.filter (is_close_of fd) l).

(** A call the script is allowed to make: a connect goes to the fixed
    server, and nothing is sent or received. *)
Definition permitted (e : event) : Prop :=
  match e with
  | EvConnect _ a => a = ("127.0.0.1"%string, 2345)
  | EvSend _ _ | EvRecv _ _ => False
  | _ => True
  end.

(** How many connect attempts a stretch of the log holds. *)
Definition is_connect (e : event) : bool :=
  match e with
  | EvConnect _ _ => true
  | _ => false
  end.

Definition connects (l : list event) : nat :=
  length (List.filter is_connect l).

(** The seconds of sleep asked for in a stretch of the log. *)
Fixpoint slept (l : list event) : Z :=
  match l with
  | [] => 0
  | EvSleep secs :: l' => secs + slept l'
  | _ :: l' => slept l'
  end.

(** [w'] comes after [w]: the environment is the same and none of its
    answers was handed back, the log has only grown, and the clock has
    moved on by at least the seconds of sleep asked for in between. *)
Definition follows (w w' : World) : Prop :=
  oracle w' = oracle w
  /\ (asked w <= asked w')%nat
  /\ exists delta : list event,
       log w' = log w ++ delta
       /\ Forall (fun e => forall secs, e = EvSleep secs -> 0 <= secs) delta
       /\ now_ms w + 1000 * slept delta <= now_ms w'.

(** A statement every run of which ends in a world that comes after the
    one it started in. *)
Definition orderly {A} (m : M A) : Prop := forall w, follows w (snd (m w)).

(** An environment whose calls fail, when they fail, with a [socket.error]. *)
Definition benign (w : World) : Prop :=
  forall (i : nat) (e : exn), fails (oracle w i) = Some e -> is_socket_error e = true.

(** * Properties *)

(** ** The socket table *)

Lemma state_of_set_sock_eq (w : World) (fd : nat) (s : sock_state) :
  state_of (set_sock fd s w) fd = s.
Proof. unfold state_of, set_sock; simpl. by rewrite lookup_insert_eq. Qed.

(** ** What one call does *)

Section Calls.

Variable w : World.
Variable fd : nat.

Lemma sleep_nonneg (secs : Z) :
  0 <= secs ->
  time.sleep secs w =
    (Ret tt, advance (1000 * secs + Z.of_N (delay (next_answer w)))
                     (consume (emit (EvSleep secs) w))).
Proof.
  intros Hs. unfold time.sleep.
  destruct (Z.ltb_spec secs 0) as [Hneg | _]; [lia | reflexivity].
Qed.

Lemma connect_log (r : result unit) (w1 : World) (a : address) :
  socket.connect fd a w = (r, w1) ->
  log w1 = log w ++ [EvConnect fd a]
  /\ self_sock w1 = self_sock w
  /\ next_fd w1 = next_fd w
  /\ oracle w1 = oracle w
  /\ now_ms w <= now_ms w1.
Proof.
  unfold socket.connect, state_of; simpl.
  destruct (socks w !! fd) as [[ | | ] | ]; simpl;
    try destruct (fails _); intros [= <- <-]; simpl; repeat split; lia.
Qed.

Lemma connect_ok_state (w1 : World) (a : address) :
  socket.connect fd a w = (Ret tt, w1) ->
  state_of w fd = Unconnected /\ state_of w1 fd = Connected.
Proof.
  unfold socket.connect. simpl.
  change (state_of (emit (EvConnect fd a) w) fd) with (state_of w fd).
  destruct (state_of w fd); try discriminate.
  destruct (fails _); [discriminate | ]. intros [= <-].
  split; [reflexivity | apply state_of_set_sock_eq].
Qed.

Lemma connect_raise_state (e : exn) (w1 : World) (a : address) :
  socket.connect fd a w = (Raise e, w1) -> socks w1 = socks w.
Proof.
  unfold socket.connect. simpl.
  change (state_of (emit (EvConnect fd a) w) fd) with (state_of w fd).
  destruct (state_of w fd); try destruct (fails _); intros [= <- <-] || intros [= <-];
    reflexivity.
Qed.

End Calls.

(** ** The task, path by path *)

Lemma randint_of_range (a b : Z) (bits : N) :
  a <= b -> a <= random.randint_of a b bits <= b.
Proof.
  intros Hab. unfold random.randint_of, random.randbelow_of.
  pose proof (Z.mod_pos_bound (Z.of_N bits) (b - a + 1)). lia.
Qed.

Lemma randint_1_10 (w : World) :
  random.randint 1 10 w =
    (Ret (random.randint_of 1 10 (draw (next_answer w))), consume w).
Proof. reflexivity. Qed.

Section Task.

Variable w : World.
Variable fd : nat.
Hypothesis Hself : self_sock w = Some fd.

(** The body stops at a connect that raises. *)
Lemma body_connect_raises (e : exn) (w1 : World) :
  socket.connect fd TcpClient.server w = (Raise e, w1) ->
  TcpClient.connect_to_server_body w = (Raise e, w1).
Proof.
  intros Hc. unfold TcpClient.connect_to_server_body, bind, TcpClient.get_sock.
  rewrite Hself, Hc. reflexivity.
Qed.

(** After a connect that returns, the body draws the duration, sleeps and
    closes the socket it connected. *)
Lemma body_connect_returns (w1 : World) :
  socket.connect fd TcpClient.server w = (Ret tt, w1) ->
  let d := random.randint_of 1 10 (draw (next_answer w1)) in
  TcpClient.connect_to_server_body w =
    socket.close fd (snd (time.sleep d (consume w1))).
Proof.
  intros Hc d. unfold TcpClient.connect_to_server_body, bind, TcpClient.get_sock.
  rewrite Hself, Hc, randint_1_10. fold d.
  pose proof (randint_of_range 1 10 (draw (next_answer w1))) as Hd. fold d in Hd.
  rewrite sleep_nonneg by lia. simpl.
  destruct (connect_log _ _ _ _ _ Hc) as (_ & Hs & _).
  rewrite Hs, Hself. reflexivity.
Qed.

End Task.

(** ** The error path *)

(** The handler of [connect_to_server], run in the world the body left. *)
Lemma backoff_returns (w : World) :
  exists w',
    time.sleep 1 w = (Ret tt, w')
    /\ log w' = log w ++ [EvSleep 1]
    /\ now_ms w + 1000 <= now_ms w'
    /\ socks w' = socks w
    /\ self_sock w' = self_sock w
    /\ next_fd w' = next_fd w.
Proof.
  eexists. split; [apply sleep_nonneg; lia | ]. simpl. repeat split. lia.
Qed.

(** C1: when the connect attempt raises a [socket.error], the task catches
    it, sleeps one second and returns normally: the calls of the whole
    invocation are that one connect attempt followed by [sleep(1)] (nothing
    is retried), and at least one second has passed on the clock. *)
Theorem connect_error_backs_off (w w1 : World) (fd : nat) (errno : Z) :
  self_sock w = Some fd ->
  socket.connect fd TcpClient.server w = (Raise (OSError errno), w1) ->
  exists w',
    TcpClient.connect_to_server w = (Ret tt, w')
    /\ log w' = log w ++ [EvConnect fd TcpClient.server; EvSleep 1]
    /\ now_ms w + 1000 <= now_ms w'.
Proof.
  intros Hself Hc.
  destruct (backoff_returns w1) as (w' & Hsl & Hlog & Hnow & _).
  destruct (connect_log _ _ _ _ _ Hc) as (Hlog1 & _ & _ & _ & Hnow1).
  exists w'. split; [ | split].
  - unfold TcpClient.connect_to_server, try_except.
    rewrite (body_connect_raises w fd Hself _ _ Hc). exact Hsl.
  - rewrite Hlog, Hlog1, <- app_assoc. reflexivity.
  - lia.
Qed.

Lemma connect_error_backs_off_refused :
  exists w',
    TcpClient.connect_to_server (snd (TcpClient.on_start (boot [refused]))) = (Ret tt, w')
    /\ log w' = [EvSocket 3; EvConnect 3 TcpClient.server; EvSleep 1]
    /\ 1000 <= now_ms w'.
Proof.
  destruct (connect_error_backs_off
              (snd (TcpClient.on_start (boot [refused])))
              (snd (socket.connect 3 TcpClient.server
                      (snd (TcpClient.on_start (boot [refused])))))
              3 ECONNREFUSED) as (w' & Hrun & Hlog & Hnow).
  - reflexivity.
  - reflexivity.
  - exists w'. split; [exact Hrun | split; [exact Hlog | exact Hnow]].
Defined.

(** ** The success path *)

Lemma close_connected (w : World) (fd : nat) :
  state_of w fd = Connected ->
  socket.close fd w =
    (match fails (next_answer w) with
     | None => Ret tt
     | Some e => Raise e
     end,
     set_sock fd Closed
       (advance (Z.of_N (delay (next_answer w))) (consume (emit (EvClose fd) w)))).
Proof.
  intros Hst. unfold socket.close.
  change (state_of (emit (EvClose fd) w) fd) with (state_of w fd). rewrite Hst.
  change (next_answer (emit (EvClose fd) w)) with (next_answer w).
  destruct (fails (next_answer w)); reflexivity.
Qed.

(** The world in which the sleep of a successful run begins, and the one in
    which it ends. *)
Definition before_sleep (w1 : World) : World := consume w1.

Definition after_sleep (w1 : World) : World :=
  snd (time.sleep (random.randint_of 1 10 (draw (next_answer w1))) (before_sleep w1)).

Lemma after_sleep_frame (w1 : World) :
  let d := random.randint_of 1 10 (draw (next_answer w1)) in
  time.sleep d (before_sleep w1) = (Ret tt, after_sleep w1)
  /\ log (after_sleep w1) = log w1 ++ [EvSleep d]
  /\ socks (after_sleep w1) = socks w1
  /\ self_sock (after_sleep w1) = self_sock w1
  /\ next_fd (after_sleep w1) = next_fd w1
  /\ now_ms w1 + 1000 * d <= now_ms (after_sleep w1).
Proof.
  intros d. unfold after_sleep. fold d.
  pose proof (randint_of_range 1 10 (draw (next_answer w1))) as Hd. fold d in Hd.
  rewrite sleep_nonneg by lia. simpl. repeat split. lia.
Qed.

(** Everything a run does once its connect has returned. *)
Lemma task_connect_returns (w w1 : World) (fd : nat) :
  self_sock w = Some fd ->
  socket.connect fd TcpClient.server w = (Ret tt, w1) ->
  let d := random.randint_of 1 10 (draw (next_answer w1)) in
  exists (r : result unit) (w' : World) (rest : list event),
    TcpClient.connect_to_server w = (r, w')
    /\ log w' = log w ++ EvConnect fd TcpClient.server :: EvSleep d :: EvClose fd :: rest
    /\ (rest = [] \/ rest = [EvSleep 1])
    /\ state_of w' fd = Closed
    /\ self_sock w' = self_sock w
    /\ next_fd w' = next_fd w
    /\ (forall e, r = Raise e -> is_socket_error e = false)
    /\ now_ms w + 1000 * d <= now_ms w'.
Proof.
  intros Hself Hc d.
  destruct (connect_log _ _ _ _ _ Hc) as (Hlog1 & Hs1 & Hn1 & _ & Hnow1).
  destruct (connect_ok_state _ _ _ _ Hc) as (_ & Hst1).
  destruct (after_sleep_frame w1) as (_ & Hlog3 & Hso3 & Hs3 & Hn3 & Hnow3).
  fold d in Hlog3, Hnow3.
  assert (Hst3 : state_of (after_sleep w1) fd = Connected).
  { unfold state_of in *. rewrite Hso3. exact Hst1. }
  unfold TcpClient.connect_to_server, try_except.
  rewrite (body_connect_returns w fd Hself w1 Hc).
  change (snd (time.sleep _ (consume w1))) with (after_sleep w1).
  rewrite (close_connected _ _ Hst3).
  set (w4 := set_sock fd Closed _).
  assert (Hlog4 : log w4 = log w ++ [EvConnect fd TcpClient.server; EvSleep d; EvClose fd]).
  { subst w4. simpl. rewrite Hlog3, Hlog1, <- !app_assoc. reflexivity. }
  assert (Hst4 : state_of w4 fd = Closed) by apply state_of_set_sock_eq.
  assert (Hs4 : self_sock w4 = self_sock w) by (subst w4; simpl; congruence).
  assert (Hn4 : next_fd w4 = next_fd w) by (subst w4; simpl; congruence).
  assert (Hnow4 : now_ms w + 1000 * d <= now_ms w4) by (subst w4; simpl; lia).
  destruct (fails (next_answer (after_sleep w1))) as [e | ].
  - destruct (is_socket_error e) eqn:He.
    + destruct (backoff_returns w4) as (w5 & Hsl & Hlog5 & Hnow5 & Hso5 & Hs5 & Hn5).
      exists (Ret tt), w5, [EvSleep 1]. rewrite Hsl.
      repeat split; try congruence; try lia.
      * rewrite Hlog5, Hlog4, <- app_assoc. reflexivity.
      * now right.
      * unfold state_of in *. rewrite Hso5. exact Hst4.
    + exists (Raise e), w4, []. repeat split; try congruence; try lia.
      * now left.
  - exists (Ret tt), w4, []. repeat split; try congruence; try lia.
    now left.
Qed.

(** Everything a run does once its connect has raised. *)
Lemma task_connect_raises (w w1 : World) (fd : nat) (e : exn) :
  self_sock w = Some fd ->
  socket.connect fd TcpClient.server w = (Raise e, w1) ->
  exists (w' : World) (rest : list event),
    TcpClient.connect_to_server w =
      (if is_socket_error e then Ret tt else Raise e, w')
    /\ log w' = log w ++ EvConnect fd TcpClient.server :: rest
    /\ rest = (if is_socket_error e then [EvSleep 1] else [])
    /\ socks w' = socks w
    /\ self_sock w' = self_sock w
    /\ next_fd w' = next_fd w.
Proof.
  intros Hself Hc.
  destruct (connect_log _ _ _ _ _ Hc) as (Hlog1 & Hs1 & Hn1 & _).
  pose proof (connect_raise_state _ _ _ _ _ Hc) as Hso1.
  unfold TcpClient.connect_to_server, try_except.
  rewrite (body_connect_raises w fd Hself _ _ Hc).
  destruct (is_socket_error e).
  - destruct (backoff_returns w1) as (w' & Hsl & Hlog & _ & Hso & Hs & Hn).
    exists w', [EvSleep 1]. rewrite Hsl. repeat split; try congruence.
    rewrite Hlog, Hlog1, <- app_assoc. reflexivity.
  - exists w1, []. repeat split; congruence.
Qed.

(** A task that runs before [on_start] has assigned [self.sock]. *)
Lemma task_without_sock (w : World) :
  self_sock w = None ->
  TcpClient.connect_to_server w = (Raise AttributeError, w).
Proof.
  intros Hnone.
  unfold TcpClient.connect_to_server, try_except,
    TcpClient.connect_to_server_body, bind, TcpClient.get_sock.
  rewrite Hnone. reflexivity.
Qed.

(** ** Closing *)

(** C2, as the specification words it, fails: when the connect is refused
    the task makes no call to [close] at all and leaves the socket open.
    The session started on [boot [refused]] is such a run. *)
Lemma closed_once_fails_on_refused_connect :
  ~ (forall (w : World) (fd : nat),
        self_sock w = Some fd ->
        exists delta : list event,
          log (task_cycle w) = log w ++ delta
          /\ closes fd delta = 1%nat).
Proof.
  intros Hclaim.
  destruct (Hclaim (snd (TcpClient.on_start (boot [refused]))) 3%nat eq_refl)
    as (delta & Hlog & Hcount).
  vm_compute in Hlog. injection Hlog as <-.
  vm_compute in Hcount. discriminate Hcount.
Qed.

(** C2, amended: an invocation calls [close] on its socket exactly once,
    leaving it closed, when the connect returns; when the connect raises,
    [close] is not called during the invocation and the socket table is
    left as it was. *)
Theorem closed_once_when_connected (w w1 : World) (fd : nat) (r : result unit) :
  self_sock w = Some fd ->
  socket.connect fd TcpClient.server w = (r, w1) ->
  exists delta : list event,
    log (task_cycle w) = log w ++ delta
    /\ match r with
       | Ret _ => closes fd delta = 1%nat /\ state_of (task_cycle w) fd = Closed
       | Raise _ => closes fd delta = 0%nat /\ socks (task_cycle w) = socks w
       end.
Proof.
  intros Hself Hc. unfold task_cycle. destruct r as [[] | e].
  - destruct (task_connect_returns w w1 fd Hself Hc)
      as (r' & w' & rest & Hrun & Hlog & Hrest & Hst & _).
    rewrite Hrun. simpl. eexists. split; [exact Hlog | ]. split; [ | exact Hst].
    unfold closes. cbn [List.filter is_close_of]. rewrite Nat.eqb_refl.
    destruct Hrest as [-> | ->]; reflexivity.
  - destruct (task_connect_raises w w1 fd e Hself Hc)
      as (w' & rest & Hrun & Hlog & Hrest & Hso & _).
    rewrite Hrun. simpl. eexists. split; [exact Hlog | ]. split; [ | exact Hso].
    subst rest. destruct (is_socket_error e); reflexivity.
Qed.

Lemma closed_once_when_connected_accepted :
  exists delta : list event,
    log (task_cycle (snd (TcpClient.on_start (boot [quiet])))) =
      log (snd (TcpClient.on_start (boot [quiet]))) ++ delta
    /\ closes 3 delta = 1%nat
    /\ state_of (task_cycle (snd (TcpClient.on_start (boot [quiet])))) 3 = Closed.
Proof.
  exact (closed_once_when_connected
           (snd (TcpClient.on_start (boot [quiet])))
           (snd (socket.connect 3 TcpClient.server (snd (TcpClient.on_start (boot [quiet])))))
           3%nat (Ret tt) eq_refl eq_refl).
Defined.

(** ** The sleep of a successful run *)

(** C3: in a run whose connect returns, the socket is connected in the
    world in which [time.sleep] is entered (and still when it returns),
    the rest of the run is the [close] under the [try], and the socket is
    closed in the world the task leaves. *)
Theorem open_before_sleep_closed_after (w w1 : World) (fd : nat) :
  self_sock w = Some fd ->
  socket.connect fd TcpClient.server w = (Ret tt, w1) ->
  exists d : Z,
    random.randint 1 10 w1 = (Ret d, before_sleep w1)
    /\ state_of (before_sleep w1) fd = Connected
    /\ time.sleep d (before_sleep w1) = (Ret tt, after_sleep w1)
    /\ state_of (after_sleep w1) fd = Connected
    /\ TcpClient.connect_to_server w =
         try_except (socket.close fd) is_socket_error (fun _ => time.sleep 1)
           (after_sleep w1)
    /\ state_of (task_cycle w) fd = Closed.
Proof.
  intros Hself Hc.
  destruct (connect_ok_state _ _ _ _ Hc) as (_ & Hst1).
  destruct (after_sleep_frame w1) as (Hsl & _ & Hso3 & _).
  exists (random.randint_of 1 10 (draw (next_answer w1))).
  split; [apply randint_1_10 | ].
  split; [exact Hst1 | ].
  split; [exact Hsl | ].
  split; [unfold state_of in *; rewrite Hso3; exact Hst1 | ].
  split.
  - unfold TcpClient.connect_to_server, try_except.
    rewrite (body_connect_returns w fd Hself w1 Hc). reflexivity.
  - destruct (task_connect_returns w w1 fd Hself Hc)
      as (r' & w' & rest & Hrun & _ & _ & Hst & _).
    unfold task_cycle. rewrite Hrun. exact Hst.
Qed.

Lemma open_before_sleep_closed_after_accepted :
  exists d : Z,
    state_of
      (before_sleep (snd (socket.connect 3 TcpClient.server
                            (snd (TcpClient.on_start (boot [quiet; mkAnswer None 0 17]))))))
      3 = Connected
    /\ d = 8
    /\ state_of (task_cycle (snd (TcpClient.on_start (boot [quiet; mkAnswer None 0 17])))) 3
       = Closed.
Proof.
  destruct (open_before_sleep_closed_after
              (snd (TcpClient.on_start (boot [quiet; mkAnswer None 0 17])))
              (snd (socket.connect 3 TcpClient.server
                      (snd (TcpClient.on_start (boot [quiet; mkAnswer None 0 17])))))
              3%nat eq_refl eq_refl)
    as (d & Hd & Hopen & _ & _ & _ & Hclosed).
  exists d. split; [exact Hopen | ]. split; [ | exact Hclosed].
  vm_compute in Hd. congruence.
Defined.



(** ** What a task cycle leaves untouched *)

(** The calls a task makes on the socket [s] it finds in [self.sock]. *)
Inductive task_call (s : option nat) : event -> Prop :=
| call_connect fd : s = Some fd -> task_call s (EvConnect fd TcpClient.server)
| call_sleep secs : task_call s (EvSleep secs)
| call_close fd : s = Some fd -> task_call s (EvClose fd).

Lemma task_cycle_frame (w : World) :
  self_sock (task_cycle w) = self_sock w
  /\ next_fd (task_cycle w) = next_fd w
  /\ exists delta : list event,
       log (task_cycle w) = log w ++ delta /\ Forall (task_call (self_sock w)) delta.
Proof.
  unfold task_cycle.
  destruct (self_sock w) as [fd | ] eqn:Hself.
  - destruct (socket.connect fd TcpClient.server w) as [[[] | e] w1] eqn:Hc.
    + destruct (task_connect_returns w w1 fd Hself Hc)
        as (r' & w' & rest & Hrun & Hlog & Hrest & _ & Hs & Hn & _).
      rewrite Hrun. simpl. split; [congruence | ]. split; [exact Hn | ].
      eexists. split; [exact Hlog | ].
      repeat constructor; try reflexivity.
      destruct Hrest as [-> | ->]; repeat constructor.
    + destruct (task_connect_raises w w1 fd e Hself Hc)
        as (w' & rest & Hrun & Hlog & Hrest & _ & Hs & Hn).
      rewrite Hrun. simpl. split; [congruence | ]. split; [exact Hn | ].
      eexists. split; [exact Hlog | ].
      subst rest. destruct (is_socket_error e); repeat constructor; reflexivity.
  - rewrite (task_without_sock w Hself). simpl. rewrite Hself.
    repeat split. exists []. split; [symmetry; apply app_nil_r | constructor].
Qed.



Lemma task_cycles_frame (n : nat) (w : World) :
  self_sock (task_cycles n w) = self_sock w
  /\ next_fd (task_cycles n w) = next_fd w
  /\ exists delta : list event,
       log (task_cycles n w) = log w ++ delta /\ Forall (task_call (self_sock w)) delta.
Proof.
  revert w. induction n as [ | n IH]; intros w; simpl.
  - repeat split. exists []. split; [symmetry; apply app_nil_r | constructor].
  - destruct (task_cycle_frame w) as (Hs & Hn & d1 & Hlog1 & Hall1).
    destruct (IH (task_cycle w)) as (Hs' & Hn' & d2 & Hlog2 & Hall2).
    split; [congruence | ]. split; [congruence | ].
    exists (d1 ++ d2). split.
    + rewrite Hlog2, Hlog1, <- app_assoc. reflexivity.
    + rewrite Hs in Hall2. apply Forall_app. split; assumption.
Qed.


(** The world in which a session starts. *)
Definition started (w0 : World) : World := snd (TcpClient.on_start w0).

Lemma started_sock (w0 : World) :
  self_sock (started w0) = Some (next_fd w0)
  /\ state_of (started w0) (next_fd w0) = Unconnected
  /\ next_fd (started w0) = S (next_fd w0).
Proof.
  unfold started, TcpClient.on_start, bind, socket.socket, TcpClient.put_sock. simpl.
  repeat split. unfold state_of. simpl. by rewrite lookup_insert_eq.
Qed.

(** A session against a server that accepts: the first cycle connects, holds
    and closes; the second finds the socket closed and only backs off. *)
Example second_cycle_backs_off :
  log (task_cycles 2 (started (boot [quiet; mkAnswer None 0 17]))) =
    [EvSocket 3;
     EvConnect 3 TcpClient.server; EvSleep 8; EvClose 3;
     EvConnect 3 TcpClient.server; EvSleep 1].
Proof. vm_compute. reflexivity. Qed.


(** ** Stopping the session *)

(** Between two task cycles the session's socket is never left connected:
    a cycle that connected it has also closed it. *)
Lemma in_session_sock (w : World) :
  in_session w ->
  exists fd : nat, self_sock w = Some fd /\ state_of w fd <> Connected.
Proof.
  induction 1 as [w0 | w Hin (fd & Hself & Hst)].
  - destruct (started_sock w0) as (Hs & Hu & _). fold (started w0).
    exists (next_fd w0). split; [exact Hs | ]. rewrite Hu. discriminate.
  - exists fd. destruct (task_cycle_frame w) as (Hs & _).
    split; [congruence | ].
    destruct (socket.connect fd TcpClient.server w) as [[[] | e] w1] eqn:Hc.
    + destruct (task_connect_returns w w1 fd Hself Hc)
        as (r' & w' & rest & Hrun & _ & _ & Hcl & _).
      unfold task_cycle. rewrite Hrun. simpl. rewrite Hcl. discriminate.
    + destruct (task_connect_raises w w1 fd e Hself Hc)
        as (w' & rest & Hrun & _ & _ & Hso & _).
      unfold task_cycle. rewrite Hrun. simpl.
      unfold state_of in *. rewrite Hso. exact Hst.
Qed.

(** C6: in every state of a started session -- right after [on_start], or
    after any number of task cycles, among them cycles that already closed
    the socket -- [on_stop] makes its one [close] call, returns without
    raising and leaves the socket closed. *)
Theorem on_stop_closes_without_raising (w : World) :
  in_session w ->
  exists (fd : nat) (w' : World),
    self_sock w = Some fd
    /\ TcpClient.on_stop w = (Ret tt, w')
    /\ log w' = log w ++ [EvClose fd]
    /\ state_of w' fd = Closed.
Proof.
  intros Hin. destruct (in_session_sock w Hin) as (fd & Hself & Hst).
  exists fd. unfold TcpClient.on_stop, bind, TcpClient.get_sock. rewrite Hself.
  unfold socket.close.
  change (state_of (emit (EvClose fd) w) fd) with (state_of w fd).
  destruct (state_of w fd) eqn:Hs; [ | congruence | ].
  - eexists. split; [reflexivity | ]. split; [reflexivity | ].
    split; [reflexivity | apply state_of_set_sock_eq].
  - eexists. split; [reflexivity | ]. split; [reflexivity | ].
    split; [reflexivity | exact Hs].
Qed.

Lemma on_stop_closes_without_raising_twice :
  state_of (task_cycle (started (boot [quiet]))) 3 = Closed
  /\ exists (fd : nat) (w' : World),
       self_sock (task_cycle (started (boot [quiet]))) = Some fd
       /\ TcpClient.on_stop (task_cycle (started (boot [quiet]))) = (Ret tt, w')
       /\ log w' = log (task_cycle (started (boot [quiet]))) ++ [EvClose fd]
       /\ state_of w' fd = Closed.
Proof.
  split; [reflexivity | ].
  apply (on_stop_closes_without_raising (task_cycle (started (boot [quiet])))).
  apply session_cycle. apply session_started.
Defined.

(** ** The calls a task makes *)

(** C7: every call recorded during an invocation is permitted: each connect
    attempt goes to 127.0.0.1 port 2345, and no send or receive is made. *)
Theorem connects_only_to_server (w : World) :
  exists delta : list event,
    log (task_cycle w) = log w ++ delta /\ Forall permitted delta.
Proof.
  destruct (task_cycle_frame w) as (_ & _ & delta & Hlog & Hall).
  exists delta. split; [exact Hlog | ].
  eapply Forall_impl; [exact Hall | ].
  intros e He. destruct He; simpl; auto.
Qed.

(** ** What the [try] catches *)

(** C8: an exception raised anywhere in the body that is not a
    [socket.error] leaves the task as it left the body: the same exception,
    in the same world, with no backoff in between. *)
Theorem other_exceptions_propagate (w w' : World) (e : exn) :
  TcpClient.connect_to_server_body w = (Raise e, w') ->
  is_socket_error e = false ->
  TcpClient.connect_to_server w = (Raise e, w').
Proof.
  intros Hbody He. unfold TcpClient.connect_to_server, try_except.
  rewrite Hbody, He. reflexivity.
Qed.

(** An interrupt delivered during the connect of a fresh session. *)
Definition interrupted : answer := mkAnswer (Some KeyboardInterrupt) 0 0.

Lemma other_exceptions_propagate_interrupt :
  fst (TcpClient.connect_to_server (started (boot [interrupted]))) = Raise KeyboardInterrupt
  /\ log (snd (TcpClient.connect_to_server (started (boot [interrupted])))) =
       [EvSocket 3; EvConnect 3 TcpClient.server].
Proof.
  rewrite (other_exceptions_propagate
             (started (boot [interrupted]))
             (snd (TcpClient.connect_to_server_body (started (boot [interrupted]))))
             KeyboardInterrupt eq_refl eq_refl).
  split; reflexivity.
Defined.

(** C9: the [try] spans the whole body.  Whatever [socket.error] the body
    raises, wherever it raises it, the task answers with the one-second
    backoff and returns; in particular so when it is [close] that raises
    after the connect and the sleep went through; hence no run of the task
    raises a [socket.error]. *)
Theorem socket_errors_never_escape (w : World) :
  (forall (e : exn) (w1 : World),
     TcpClient.connect_to_server_body w = (Raise e, w1) ->
     is_socket_error e = true ->
     exists w' : World,
       TcpClient.connect_to_server w = (Ret tt, w')
       /\ log w' = log w1 ++ [EvSleep 1]
       /\ now_ms w1 + 1000 <= now_ms w')
  /\ (forall (fd : nat) (w1 w2 : World) (errno : Z),
        self_sock w = Some fd ->
        socket.connect fd TcpClient.server w = (Ret tt, w1) ->
        socket.close fd (after_sleep w1) = (Raise (OSError errno), w2) ->
        TcpClient.connect_to_server w = time.sleep 1 w2
        /\ fst (time.sleep 1 w2) = Ret tt)
  /\ (forall e : exn,
        fst (TcpClient.connect_to_server w) = Raise e -> is_socket_error e = false).
Proof.
  split; [ | split].
  - intros e w1 Hbody He.
    destruct (backoff_returns w1) as (w' & Hsl & Hlog & Hnow & _).
    exists w'. split; [ | split; assumption].
    unfold TcpClient.connect_to_server, try_except. rewrite Hbody, He. exact Hsl.
  - intros fd w1 w2 errno Hself Hc Hclose.
    split; [ | reflexivity].
    unfold TcpClient.connect_to_server, try_except.
    rewrite (body_connect_returns w fd Hself w1 Hc).
    change (snd (time.sleep _ (consume w1))) with (after_sleep w1).
    rewrite Hclose. reflexivity.
  - intros e Hraise.
    unfold TcpClient.connect_to_server, try_except in Hraise.
    destruct (TcpClient.connect_to_server_body w) as [[[] | e'] w1]; [discriminate | ].
    destruct (is_socket_error e') eqn:He'.
    + destruct (backoff_returns w1) as (w' & Hsl & _).
      rewrite Hsl in Hraise. discriminate.
    + simpl in Hraise. congruence.
Qed.

(** A close that fails with [EIO] after the connect was accepted. *)
Definition close_fails : list answer :=
  [quiet; mkAnswer None 0 4; quiet; mkAnswer (Some (OSError EIO)) 0 0].

Lemma socket_errors_never_escape_failed_close :
  fst (socket.close 3 (after_sleep (snd (socket.connect 3 TcpClient.server
                                           (started (boot close_fails))))))
    = Raise (OSError EIO)
  /\ exists w' : World,
       TcpClient.connect_to_server (started (boot close_fails)) = (Ret tt, w')
       /\ log w' =
            [EvSocket 3; EvConnect 3 TcpClient.server; EvSleep 5; EvClose 3; EvSleep 1].
Proof.
  split; [vm_compute; reflexivity | ].
  destruct (socket_errors_never_escape (started (boot close_fails))) as (Hany & _ & _).
  assert (Hbody : TcpClient.connect_to_server_body (started (boot close_fails)) =
                    (Raise (OSError EIO),
                     snd (TcpClient.connect_to_server_body (started (boot close_fails)))))
    by (vm_compute; reflexivity).
  destruct (Hany (OSError EIO) _ Hbody eq_refl) as (w' & Hrun & Hlog & _).
  exists w'. split; [exact Hrun | ].
  rewrite Hlog. vm_compute. reflexivity.
Defined.

(** ** The wait between tasks *)




(** * Further properties of the script *)

(** ** Hooks and task before [on_start] *)

(** X1: while [self.sock] is unassigned, both [connect_to_server] and
    [on_stop] fail with [AttributeError] on reading it: the [except
    socket.error] does not catch it, no call reaches the runtime and the
    world is left as it was. *)
Theorem hooks_need_on_start (w : World) :
  self_sock w = None ->
  TcpClient.connect_to_server w = (Raise AttributeError, w)
  /\ TcpClient.on_stop w = (Raise AttributeError, w).
Proof.
  intros Hnone. split; [apply task_without_sock; exact Hnone | ].
  unfold TcpClient.on_stop, bind, TcpClient.get_sock. rewrite Hnone. reflexivity.
Qed.

Lemma hooks_need_on_start_at_boot :
  TcpClient.connect_to_server (boot []) = (Raise AttributeError, boot [])
  /\ TcpClient.on_stop (boot []) = (Raise AttributeError, boot []).
Proof. apply (hooks_need_on_start (boot [])). reflexivity. Defined.

(** ** Order in the log and on the clock *)

Lemma slept_app (l1 l2 : list event) : slept (l1 ++ l2) = slept l1 + slept l2.
Proof.
  induction l1 as [ | e l1 IH]; simpl; [reflexivity | ].
  destruct e; rewrite IH; lia.
Qed.

Lemma follows_refl (w : World) : follows w w.
Proof.
  split; [reflexivity | ]. split; [lia | ].
  exists []. split; [symmetry; apply app_nil_r | ]. split; [constructor | simpl; lia].
Qed.

Lemma follows_trans (w1 w2 w3 : World) :
  follows w1 w2 -> follows w2 w3 -> follows w1 w3.
Proof.
  intros (Ho1 & Ha1 & d1 & Hl1 & Hf1 & Hn1) (Ho2 & Ha2 & d2 & Hl2 & Hf2 & Hn2).
  split; [congruence | ]. split; [lia | ].
  exists (d1 ++ d2). split; [rewrite Hl2, Hl1, <- app_assoc; reflexivity | ].
  split; [apply Forall_app; split; assumption | ].
  rewrite slept_app. lia.
Qed.

(** One call that logs [e] and moves the clock by [ms]. *)
Lemma follows_step (w w' : World) (e : event) (ms : Z) :
  oracle w' = oracle w ->
  (asked w <= asked w')%nat ->
  log w' = log w ++ [e] ->
  now_ms w' = now_ms w + ms ->
  (forall secs, e = EvSleep secs -> 0 <= secs) ->
  1000 * slept [e] <= ms ->
  follows w w'.
Proof.
  intros Ho Ha Hl Hn Hs Hms. split; [exact Ho | ]. split; [exact Ha | ].
  exists [e]. split; [exact Hl | ]. split; [ | lia].
  constructor; [exact Hs | constructor].
Qed.

Lemma orderly_ret {A} (a : A) : orderly (ret a).
Proof. intros w. apply follows_refl. Qed.

Lemma orderly_bind {A B} (m : M A) (k : A -> M B) :
  orderly m -> (forall a, orderly (k a)) -> orderly (bind m k).
Proof.
  intros Hm Hk w. unfold bind. specialize (Hm w).
  destruct (m w) as [[a | e] w1]; simpl in *; [ | exact Hm].
  eapply follows_trans; [exact Hm | apply Hk].
Qed.

Lemma orderly_try_except {A} (body : M A) (catches : exn -> bool)
    (handler : exn -> M A) :
  orderly body -> (forall e, orderly (handler e)) ->
  orderly (try_except body catches handler).
Proof.
  intros Hb Hh w. unfold try_except. specialize (Hb w).
  destruct (body w) as [[a | e] w1]; simpl in *; [exact Hb | ].
  destruct (catches e); [ | exact Hb].
  eapply follows_trans; [exact Hb | apply Hh].
Qed.


Lemma orderly_connect (fd : nat) (a : address) : orderly (socket.connect fd a).
Proof.
  intros w. unfold socket.connect.
  change (state_of (emit (EvConnect fd a) w) fd) with (state_of w fd).
  change (next_answer (emit (EvConnect fd a) w)) with (next_answer w).
  destruct (state_of w fd); [destruct (fails (next_answer w)) | | ].
  1,2: apply follows_step with (e := EvConnect fd a) (ms := Z.of_N (delay (next_answer w)));
    simpl; try reflexivity; try lia; discriminate.
  1,2: apply follows_step with (e := EvConnect fd a) (ms := 0);
    simpl; try reflexivity; try lia; discriminate.
Qed.

Lemma orderly_close (fd : nat) : orderly (socket.close fd).
Proof.
  intros w. unfold socket.close.
  change (state_of (emit (EvClose fd) w) fd) with (state_of w fd).
  change (next_answer (emit (EvClose fd) w)) with (next_answer w).
  destruct (state_of w fd); [ | destruct (fails (next_answer w)) | ].
  2,3: apply follows_step with (e := EvClose fd) (ms := Z.of_N (delay (next_answer w)));
    simpl; try reflexivity; try lia; discriminate.
  1,2: apply follows_step with (e := EvClose fd) (ms := 0);
    simpl; try reflexivity; try lia; discriminate.
Qed.

Lemma orderly_sleep (secs : Z) : orderly (time.sleep secs).
Proof.
  intros w. unfold time.sleep.
  destruct (Z.ltb_spec secs 0) as [Hneg | Hpos]; simpl; [apply follows_refl | ].
  apply follows_step
    with (e := EvSleep secs) (ms := 1000 * secs + Z.of_N (delay (next_answer w)));
    simpl; try reflexivity; try lia.
  intros s [= <-]. exact Hpos.
Qed.

Lemma orderly_randint (a b : Z) : orderly (random.randint a b).
Proof.
  intros w. unfold random.randint. destruct (b <? a); simpl; [apply follows_refl | ].
  split; [reflexivity | ]. split; [simpl; lia | ].
  exists []. split; [symmetry; apply app_nil_r | ]. split; [constructor | simpl; lia].
Qed.

Lemma orderly_get_sock : orderly TcpClient.get_sock.
Proof.
  intros w. unfold TcpClient.get_sock. destruct (self_sock w); apply follows_refl.
Qed.


Lemma orderly_connect_to_server : orderly TcpClient.connect_to_server.
Proof.
  apply orderly_try_except; [ | intros _; apply orderly_sleep].
  apply orderly_bind; [apply orderly_get_sock | intros s].
  apply orderly_bind; [apply orderly_connect | intros _].
  apply orderly_bind; [apply orderly_randint | intros d].
  apply orderly_bind; [apply orderly_sleep | intros _].
  apply orderly_bind; [apply orderly_get_sock | intros s'].
  apply orderly_close.
Qed.

Lemma follows_task_cycles (n : nat) (w : World) : follows w (task_cycles n w).
Proof.
  revert w. induction n as [ | n IH]; intros w; simpl; [apply follows_refl | ].
  eapply follows_trans; [apply orderly_connect_to_server | apply IH].
Qed.


(** ** One invocation *)

Lemma connects_app (l1 l2 : list event) :
  connects (l1 ++ l2) = (connects l1 + connects l2)%nat.
Proof. unfold connects. rewrite List.filter_app, List.length_app. reflexivity. Qed.

Lemma closes_app (fd : nat) (l1 l2 : list event) :
  closes fd (l1 ++ l2) = (closes fd l1 + closes fd l2)%nat.
Proof. unfold closes. rewrite List.filter_app, List.length_app. reflexivity. Qed.

(** X3: whatever the outcome of an invocation that finds [self.sock]
    assigned -- return, backoff or an exception passed on -- its first call
    is the connect to the server and no other connect attempt follows. *)
Theorem one_connect_attempt_per_task (w : World) (fd : nat) :
  self_sock w = Some fd ->
  exists rest : list event,
    log (task_cycle w) = log w ++ EvConnect fd TcpClient.server :: rest
    /\ connects rest = 0%nat.
Proof.
  intros Hself. unfold task_cycle.
  destruct (socket.connect fd TcpClient.server w) as [[[] | e] w1] eqn:Hc.
  - destruct (task_connect_returns w w1 fd Hself Hc)
      as (r' & w' & rest & Hrun & Hlog & Hrest & _).
    rewrite Hrun. simpl. eexists. split; [exact Hlog | ].
    destruct Hrest as [-> | ->]; reflexivity.
  - destruct (task_connect_raises w w1 fd e Hself Hc)
      as (w' & rest & Hrun & Hlog & Hrest & _).
    rewrite Hrun. simpl. exists rest. split; [exact Hlog | ].
    subst rest. destruct (is_socket_error e); reflexivity.
Qed.

Lemma one_connect_attempt_per_task_interrupted :
  exists rest : list event,
    log (task_cycle (started (boot [interrupted]))) =
      log (started (boot [interrupted])) ++ EvConnect 3 TcpClient.server :: rest
    /\ connects rest = 0%nat.
Proof.
  apply (one_connect_attempt_per_task (started (boot [interrupted])) 3%nat).
  reflexivity.
Defined.

(** The calls of an invocation that returns. *)
Lemma returning_task_calls (w w' : World) :
  TcpClient.connect_to_server w = (Ret tt, w') ->
  exists delta : list event,
    log w' = log w ++ delta /\ connects delta = 1%nat /\ 1 <= slept delta <= 11.
Proof.
  intros Hret.
  destruct (self_sock w) as [fd | ] eqn:Hself.
  - destruct (socket.connect fd TcpClient.server w) as [[[] | e] w1] eqn:Hc.
    + destruct (task_connect_returns w w1 fd Hself Hc)
        as (r' & w'' & rest & Hrun & Hlog & Hrest & _).
      rewrite Hret in Hrun. injection Hrun as <- <-.
      pose proof (randint_of_range 1 10 (draw (next_answer w1))) as Hd.
      eexists. split; [exact Hlog | ].
      destruct Hrest as [-> | ->]; simpl; split; try reflexivity; lia.
    + destruct (task_connect_raises w w1 fd e Hself Hc)
        as (w'' & rest & Hrun & Hlog & Hrest & _).
      rewrite Hret in Hrun. destruct (is_socket_error e); [ | discriminate].
      injection Hrun as <-. subst rest.
      eexists. split; [exact Hlog | ]. simpl. split; [reflexivity | lia].
  - rewrite (task_without_sock w Hself) in Hret. discriminate.
Qed.

Lemma returning_task_clock (w w' : World) :
  TcpClient.connect_to_server w = (Ret tt, w') -> now_ms w + 1000 <= now_ms w'.
Proof.
  intros Hret.
  destruct (returning_task_calls w w' Hret) as (delta & Hlog & _ & Hslept).
  destruct (orderly_connect_to_server w) as (_ & _ & delta' & Hlog' & _ & Hnow).
  rewrite Hret in Hlog', Hnow. simpl in Hlog', Hnow.
  rewrite Hlog in Hlog'. apply app_inv_head in Hlog'. subst delta'. lia.
Qed.

(** X4: an invocation that returns has made exactly one connect attempt,
    has asked for between 1 and 11 seconds of sleep in all (the hold of 1
    to 10 seconds, the 1-second backoff, or both when [close] fails), and
    at least one second has passed on the clock. *)
Theorem returning_task_sleeps_1_to_11 (w w' : World) :
  TcpClient.connect_to_server w = (Ret tt, w') ->
  exists delta : list event,
    log w' = log w ++ delta
    /\ connects delta = 1%nat
    /\ 1 <= slept delta <= 11
    /\ now_ms w + 1000 <= now_ms w'.
Proof.
  intros Hret.
  destruct (returning_task_calls w w' Hret) as (delta & Hlog & Hconn & Hslept).
  exists delta. split; [exact Hlog | ]. split; [exact Hconn | ].
  split; [exact Hslept | apply returning_task_clock; exact Hret].
Qed.

Lemma returning_task_sleeps_1_to_11_failed_close :
  exists delta : list event,
    log (task_cycle (started (boot close_fails))) =
      log (started (boot close_fails)) ++ delta
    /\ connects delta = 1%nat
    /\ 1 <= slept delta <= 11
    /\ now_ms (started (boot close_fails)) + 1000
       <= now_ms (task_cycle (started (boot close_fails))).
Proof.
  apply (returning_task_sleeps_1_to_11 (started (boot close_fails))).
  vm_compute. reflexivity.
Defined.

(** ** One session *)

(** From a socket that is not connected, [n] cycles make [n] connect
    attempts and close the socket at most once; none at all when it is
    closed already. *)
Lemma task_cycles_counts (n : nat) (w : World) (fd : nat) :
  self_sock w = Some fd ->
  state_of w fd <> Connected ->
  exists delta : list event,
    log (task_cycles n w) = log w ++ delta
    /\ connects delta = n
    /\ (closes fd delta <= 1)%nat
    /\ (state_of w fd = Closed -> closes fd delta = 0%nat).
Proof.
  revert w. induction n as [ | n IH]; intros w Hself Hst; simpl.
  - exists []. split; [symmetry; apply app_nil_r | ].
    split; [reflexivity | ]. split; [unfold closes; simpl; lia | reflexivity].
  - assert (Hself' : self_sock (task_cycle w) = Some fd).
    { destruct (task_cycle_frame w) as (Hs & _). congruence. }
    destruct (socket.connect fd TcpClient.server w) as [[[] | e] w1] eqn:Hc.
    + destruct (connect_ok_state _ _ _ _ Hc) as (Hun & _).
      destruct (task_connect_returns w w1 fd Hself Hc)
        as (r' & w' & rest & Hrun & Hlog & Hrest & Hcl & _).
      assert (Hw' : task_cycle w = w') by (unfold task_cycle; rewrite Hrun; reflexivity).
      rewrite Hw' in *.
      destruct (IH w' Hself') as (d2 & Hlog2 & Hconn2 & _ & Hzero2);
        [rewrite Hcl; discriminate | ].
      eexists. split; [rewrite Hlog2, Hlog, <- app_assoc; reflexivity | ].
      rewrite connects_app, closes_app, Hconn2, (Hzero2 Hcl).
      assert (Hone : closes fd (EvConnect fd TcpClient.server
                                  :: EvSleep (random.randint_of 1 10 (draw (next_answer w1)))
                                  :: EvClose fd :: rest) = 1%nat).
      { unfold closes. cbn [List.filter is_close_of]. rewrite Nat.eqb_refl.
        destruct Hrest as [-> | ->]; reflexivity. }
      rewrite Hone.
      split; [destruct Hrest as [-> | ->]; reflexivity | ].
      split; [lia | ]. intros Hclosed. congruence.
    + destruct (task_connect_raises w w1 fd e Hself Hc)
        as (w' & rest & Hrun & Hlog & Hrest & Hso & _).
      assert (Hw' : task_cycle w = w') by (unfold task_cycle; rewrite Hrun; reflexivity).
      rewrite Hw' in *.
      assert (Hst' : state_of w' fd = state_of w fd) by (unfold state_of; rewrite Hso; reflexivity).
      destruct (IH w' Hself') as (d2 & Hlog2 & Hconn2 & Hle2 & Hzero2);
        [rewrite Hst'; exact Hst | ].
      eexists. split; [rewrite Hlog2, Hlog, <- app_assoc; reflexivity | ].
      rewrite connects_app, closes_app, Hconn2.
      assert (Hnone : closes fd (EvConnect fd TcpClient.server :: rest) = 0%nat
                      /\ connects (EvConnect fd TcpClient.server :: rest) = 1%nat).
      { subst rest. destruct (is_socket_error e); split; reflexivity. }
      destruct Hnone as (-> & ->).
      split; [reflexivity | ]. split; [simpl; exact Hle2 | ].
      intros Hclosed. simpl. apply Hzero2. congruence.
Qed.

(** X5: a session of [n] task cycles makes [n] connect attempts but closes
    its socket at most once: since the socket is never made again, at most
    one cycle of a session holds a connection. *)
Theorem session_holds_at_most_one_connection (w0 : World) (n : nat) :
  exists delta : list event,
    log (task_cycles n (started w0)) = log (started w0) ++ delta
    /\ connects delta = n
    /\ (closes (next_fd w0) delta <= 1)%nat.
Proof.
  destruct (started_sock w0) as (Hself & Hun & _).
  destruct (task_cycles_counts n (started w0) (next_fd w0) Hself)
    as (delta & Hlog & Hconn & Hle & _); [rewrite Hun; discriminate | ].
  exists delta. split; [exact Hlog | ]. split; [exact Hconn | exact Hle].
Qed.

(** ** After [on_stop] *)

(** [on_stop] on a socket that is not connected. *)
Lemma stop_closes (w : World) (fd : nat) :
  self_sock w = Some fd ->
  state_of w fd <> Connected ->
  exists w' : World,
    TcpClient.on_stop w = (Ret tt, w')
    /\ log w' = log w ++ [EvClose fd]
    /\ self_sock w' = Some fd
    /\ state_of w' fd = Closed
    /\ forall fd', fd' <> fd -> socks w' !! fd' = socks w !! fd'.
Proof.
  intros Hself Hst.
  unfold TcpClient.on_stop, bind, TcpClient.get_sock. rewrite Hself.
  unfold socket.close.
  change (state_of (emit (EvClose fd) w) fd) with (state_of w fd).
  destruct (state_of w fd) eqn:Hs; [ | congruence | ].
  - eexists. split; [reflexivity | ]. split; [reflexivity | ].
    split; [exact Hself | ]. split; [apply state_of_set_sock_eq | ].
    intros fd' Hne. simpl. by rewrite lookup_insert_ne.
  - eexists. split; [reflexivity | ]. split; [reflexivity | ].
    split; [exact Hself | ]. split; [exact Hs | reflexivity].
Qed.

(** X6: once a session is stopped, a task invocation can only back off: its
    connect fails on the closed socket, the error is caught, one second is
    slept, nothing is closed again; and a second [on_stop] still returns. *)
Theorem task_after_stop_backs_off (w : World) :
  in_session w ->
  exists (fd : nat) (w1 w2 w3 : World),
    TcpClient.on_stop w = (Ret tt, w1)
    /\ TcpClient.connect_to_server w1 = (Ret tt, w2)
    /\ log w2 = log w1 ++ [EvConnect fd TcpClient.server; EvSleep 1]
    /\ state_of w2 fd = Closed
    /\ TcpClient.on_stop w2 = (Ret tt, w3).
Proof.
  intros Hin. destruct (in_session_sock w Hin) as (fd & Hself & Hst).
  destruct (stop_closes w fd Hself Hst) as (w1 & Hstop & _ & Hself1 & Hcl1 & _).
  assert (Hc : exists wc, socket.connect fd TcpClient.server w1 = (Raise (OSError EBADF), wc)).
  { unfold socket.connect.
    change (state_of (emit (EvConnect fd TcpClient.server) w1) fd) with (state_of w1 fd).
    rewrite Hcl1. eexists; reflexivity. }
  destruct Hc as (wc & Hc).
  destruct (task_connect_raises w1 wc fd _ Hself1 Hc)
    as (w2 & rest & Hrun & Hlog & Hrest & Hso & Hself2 & _).
  simpl in Hrun, Hrest. subst rest.
  assert (Hcl2 : state_of w2 fd = Closed).
  { unfold state_of in *. rewrite Hso. exact Hcl1. }
  destruct (stop_closes w2 fd) as (w3 & Hstop2 & _); [congruence | rewrite Hcl2; discriminate | ].
  exists fd, w1, w2, w3. repeat split; assumption.
Qed.

Lemma task_after_stop_backs_off_fresh :
  exists (fd : nat) (w1 w2 w3 : World),
    TcpClient.on_stop (started (boot [])) = (Ret tt, w1)
    /\ TcpClient.connect_to_server w1 = (Ret tt, w2)
    /\ log w2 = log w1 ++ [EvConnect fd TcpClient.server; EvSleep 1]
    /\ state_of w2 fd = Closed
    /\ TcpClient.on_stop w2 = (Ret tt, w3).
Proof.
  apply (task_after_stop_backs_off (started (boot []))). apply session_started.
Defined.

(** ** Other sockets *)

Lemma connect_other_socks (w w1 : World) (fd : nat) (a : address) (r : result unit) :
  socket.connect fd a w = (r, w1) ->
  forall fd', fd' <> fd -> socks w1 !! fd' = socks w !! fd'.
Proof.
  unfold socket.connect.
  change (state_of (emit (EvConnect fd a) w) fd) with (state_of w fd).
  destruct (state_of w fd); try destruct (fails _); intros [= <- <-] fd' Hne;
    simpl; try reflexivity.
  by rewrite lookup_insert_ne.
Qed.

Lemma close_other_socks (w : World) (fd : nat) :
  forall fd', fd' <> fd -> socks (snd (socket.close fd w)) !! fd' = socks w !! fd'.
Proof.
  intros fd' Hne. unfold socket.close.
  change (state_of (emit (EvClose fd) w) fd) with (state_of w fd).
  destruct (state_of w fd); try destruct (fails _); simpl; try reflexivity;
    by rewrite lookup_insert_ne.
Qed.

Lemma sleep_socks (secs : Z) (w : World) : socks (snd (time.sleep secs w)) = socks w.
Proof. unfold time.sleep. destruct (secs <? 0); reflexivity. Qed.

Lemma task_other_socks (w : World) (fd : nat) :
  self_sock w = Some fd ->
  forall fd', fd' <> fd -> socks (task_cycle w) !! fd' = socks w !! fd'.
Proof.
  intros Hself fd' Hne. unfold task_cycle.
  destruct (socket.connect fd TcpClient.server w) as [[[] | e] w1] eqn:Hc.
  - pose proof (connect_other_socks _ _ _ _ _ Hc fd' Hne) as H1.
    destruct (after_sleep_frame w1) as (_ & _ & H3 & _).
    pose proof (close_other_socks (after_sleep w1) fd fd' Hne) as H4.
    unfold TcpClient.connect_to_server, try_except.
    rewrite (body_connect_returns w fd Hself w1 Hc).
    change (snd (time.sleep _ (consume w1))) with (after_sleep w1).
    destruct (socket.close fd (after_sleep w1)) as [[[] | e] w4];
      cbn [snd] in H4; cbv beta.
    + cbn [snd]. congruence.
    + destruct (is_socket_error e); [rewrite sleep_socks | cbn [snd]]; congruence.
  - destruct (task_connect_raises w w1 fd e Hself Hc) as (w' & rest & Hrun & _ & _ & Hso & _).
    rewrite Hrun. simpl. rewrite Hso. reflexivity.
Qed.

(** X7: neither a task invocation nor [on_stop] touches a socket other than
    the one in [self.sock]: every other entry of the socket table is after
    the call what it was before; with [self.sock] unassigned nothing
    changes at all. *)
Theorem other_sockets_untouched (w : World) (fd' : nat) :
  self_sock w <> Some fd' ->
  socks (task_cycle w) !! fd' = socks w !! fd'
  /\ socks (snd (TcpClient.on_stop w)) !! fd' = socks w !! fd'.
Proof.
  intros Hne. destruct (self_sock w) as [fd | ] eqn:Hself.
  - assert (Hfd : fd' <> fd) by congruence. split.
    + apply (task_other_socks w fd Hself fd' Hfd).
    + unfold TcpClient.on_stop, bind, TcpClient.get_sock. rewrite Hself.
      apply close_other_socks. exact Hfd.
  - split.
    + unfold task_cycle. rewrite (task_without_sock w Hself). reflexivity.
    + unfold TcpClient.on_stop, bind, TcpClient.get_sock. rewrite Hself. reflexivity.
Qed.

(** A second user's socket, connected, beside the session's own. *)
Definition with_neighbour (w : World) : World := set_sock 7 Connected w.

Lemma other_sockets_untouched_neighbour :
  socks (task_cycle (with_neighbour (started (boot [quiet])))) !! 7%nat = Some Connected
  /\ socks (snd (TcpClient.on_stop (with_neighbour (started (boot [quiet]))))) !! 7%nat
     = Some Connected.
Proof.
  destruct (other_sockets_untouched (with_neighbour (started (boot [quiet]))) 7%nat)
    as (Htask & Hstop); [discriminate | ].
  split; [rewrite Htask | rewrite Hstop]; reflexivity.
Defined.

(** ** A session whose failures are socket errors *)

Lemma connect_raise_kind (w w1 : World) (fd : nat) (a : address) (e : exn) :
  socket.connect fd a w = (Raise e, w1) ->
  is_socket_error e = true \/ fails (next_answer w) = Some e.
Proof.
  unfold socket.connect.
  change (state_of (emit (EvConnect fd a) w) fd) with (state_of w fd).
  change (next_answer (emit (EvConnect fd a) w)) with (next_answer w).
  destruct (state_of w fd); [destruct (fails (next_answer w)) eqn:Hf | | ];
    intros [= <- <-] || intros [= <-] || discriminate; auto.
Qed.

Lemma benign_follows (w w' : World) : follows w w' -> benign w -> benign w'.
Proof. intros (Ho & _) Hb i e. rewrite Ho. apply Hb. Qed.

Lemma benign_task_returns (w : World) (fd : nat) :
  self_sock w = Some fd ->
  benign w ->
  fst (TcpClient.connect_to_server w) = Ret tt.
Proof.
  intros Hself Hb.
  destruct (socket.connect fd TcpClient.server w) as [[[] | e] w1] eqn:Hc.
  - assert (Hb3 : benign (after_sleep w1)).
    { eapply benign_follows; [ | exact Hb].
      eapply follows_trans; [ | apply orderly_sleep].
      pose proof (orderly_connect fd TcpClient.server w) as Hf. rewrite Hc in Hf.
      eapply follows_trans; [exact Hf | ]. apply (orderly_randint 1 10 w1). }
    destruct (connect_ok_state _ _ _ _ Hc) as (_ & Hst1).
    destruct (after_sleep_frame w1) as (_ & _ & Hso3 & _).
    assert (Hst3 : state_of (after_sleep w1) fd = Connected).
    { unfold state_of in *. rewrite Hso3. exact Hst1. }
    unfold TcpClient.connect_to_server, try_except.
    rewrite (body_connect_returns w fd Hself w1 Hc).
    change (snd (time.sleep _ (consume w1))) with (after_sleep w1).
    rewrite (close_connected _ _ Hst3).
    destruct (fails (next_answer (after_sleep w1))) as [e | ] eqn:Hf; [ | reflexivity].
    rewrite (Hb3 _ _ Hf). reflexivity.
  - destruct (task_connect_raises w w1 fd e Hself Hc) as (w' & rest & Hrun & _).
    rewrite Hrun. simpl.
    destruct (connect_raise_kind _ _ _ _ _ Hc) as [-> | Hf]; [reflexivity | ].
    rewrite (Hb _ _ Hf). reflexivity.
Qed.

(** X8: when the environment's calls fail only with socket errors, no task
    cycle of a session raises and each takes at least a second: after [n]
    cycles the clock has moved on by at least [n] seconds, so a user makes
    at most one connect attempt per second. *)
Theorem benign_session_pace (w : World) (fd : nat) (n : nat) :
  self_sock w = Some fd ->
  benign w ->
  now_ms w + 1000 * Z.of_nat n <= now_ms (task_cycles n w)
  /\ forall m : nat, fst (TcpClient.connect_to_server (task_cycles m w)) = Ret tt.
Proof.
  intros Hself Hb. split.
  - revert w Hself Hb. induction n as [ | n IH]; intros w Hself Hb; [simpl; lia | ].
    pose proof (benign_task_returns w fd Hself Hb) as Hret.
    assert (Hstep : now_ms w + 1000 <= now_ms (task_cycle w)).
    { unfold task_cycle. destruct (TcpClient.connect_to_server w) as [r w'] eqn:Hrun.
      simpl in Hret. subst r. destruct (TcpClient.connect_to_server w) as [[[] | ?] ?] eqn:Hrun'.
      - injection Hrun as <-. apply (returning_task_clock w _ Hrun').
      - discriminate. }
    assert (Hself' : self_sock (task_cycle w) = Some fd).
    { destruct (task_cycle_frame w) as (Hs & _). congruence. }
    assert (Hb' : benign (task_cycle w)).
    { eapply benign_follows; [apply orderly_connect_to_server | exact Hb]. }
    specialize (IH (task_cycle w) Hself' Hb'). simpl task_cycles. lia.
  - intros m. apply (benign_task_returns _ fd).
    + destruct (task_cycles_frame m w) as (Hs & _). congruence.
    + eapply benign_follows; [apply follows_task_cycles | exact Hb].
Qed.

Lemma benign_session_pace_refused :
  now_ms (started (boot [refused])) + 1000 * Z.of_nat 3
    <= now_ms (task_cycles 3 (started (boot [refused])))
  /\ forall m : nat,
       fst (TcpClient.connect_to_server (task_cycles m (started (boot [refused])))) = Ret tt.
Proof.
  apply (benign_session_pace (started (boot [refused])) 3%nat 3%nat).
  - reflexivity.
  - intros i e. simpl. destruct i as [ | [ | i]]; simpl.
    + intros [= <-]. reflexivity.
    + discriminate.
    + discriminate.
Defined.

(** ** Starting twice *)



